(** * Retirement portfolio forecasting tool (task-2/src/App.js)

    A shallow embedding of the projection engine of [App.js]: the
    compound-interest future value, the fixed annuity conversion, the
    input validator, the three-scenario derivation and the chart series,
    together with the properties the specification states about them.

    Numbers.  JavaScript numbers are modelled as the extended reals of
    IEEE 754: a finite real, the two infinities, or NaN.  Arithmetic on
    finite values is exact (rounding to binary64 and overflow are not
    modelled, which is the reading the specification takes when it speaks
    of reals); the special values follow IEEE 754, in particular
    [0 / 0 = NaN] and [x / 0 = +-Infinity].  Zero carries no sign: a zero
    divisor is read as [+0].

    State.  The React component keeps [inputs], [results], [scenarios],
    [chartData] and [errors]; [calculateResults] is a function from the
    component state to the component state, each [setX] call being an
    update of the corresponding field. *)

From Stdlib Require Import Reals Lra Lia ZArith List.
From stdpp Require Import base decidable option list gmap strings.

Local Open Scope string_scope.
Local Open Scope R_scope.

(** ** Decisions on real numbers *)

#[global] Instance Rlt_decision (x y : R) : Decision (x < y) := Rlt_dec x y.
#[global] Instance Rle_decision (x y : R) : Decision (x <= y) := Rle_dec x y.
#[global] Instance Req_decision : EqDecision R := Req_dec_T.

(** ** JavaScript numbers *)

Module JS.

Inductive number : Type :=
  | Fin (x : R)
  | PInf
  | NInf
  | NaN.

Definition is_finite (a : number) : Prop :=
  match a with Fin _ => True | _ => False end.

(** The infinity of the given sign. *)
Definition inf (positive : bool) : number := if positive then PInf else NInf.

(** The sign of a finite real as seen by a multiplication or division by
    an infinity: [None] for zero. *)
Definition sign (x : R) : option bool :=
  if bool_decide (x = 0) then None
  else Some (bool_decide (0 < x)).

Definition neg (a : number) : number :=
  match a with
  | Fin x => Fin (- x)
  | PInf => NInf
  | NInf => PInf
  | NaN => NaN
  end.

(** [a + b] *)
Definition add (a b : number) : number :=
  match a, b with
  | NaN, _ | _, NaN => NaN
  | Fin x, Fin y => Fin (x + y)
  | PInf, NInf | NInf, PInf => NaN
  | PInf, _ | _, PInf => PInf
  | NInf, _ | _, NInf => NInf
  end.

(** [a - b] *)
Definition sub (a b : number) : number := add a (neg b).

(** An infinity of sign [s] times the finite real [x]. *)
Definition inf_times (s : bool) (x : R) : number :=
  match sign x with
  | None => NaN
  | Some true => inf s
  | Some false => inf (negb s)
  end.

(** [a * b] *)
Definition mul (a b : number) : number :=
  match a, b with
  | NaN, _ | _, NaN => NaN
  | Fin x, Fin y => Fin (x * y)
  | PInf, Fin y | Fin y, PInf => inf_times true y
  | NInf, Fin y | Fin y, NInf => inf_times false y
  | PInf, PInf | NInf, NInf => PInf
  | PInf, NInf | NInf, PInf => NInf
  end.

(** [a / b]: a zero divisor gives NaN for a zero dividend and an infinity
    otherwise. *)
Definition div (a b : number) : number :=
  match a, b with
  | NaN, _ | _, NaN => NaN
  | Fin x, Fin y =>
      if bool_decide (y = 0) then
        match sign x with
        | None => NaN
        | Some s => inf s
        end
      else Fin (x / y)
  | Fin _, (PInf | NInf) => Fin 0
  | PInf, Fin y => inf (negb (bool_decide (y < 0)))
  | NInf, Fin y => inf (bool_decide (y < 0))
  | (PInf | NInf), (PInf | NInf) => NaN
  end.

(** [a < b]; every comparison with NaN is false. *)
Definition lt (a b : number) : bool :=
  match a, b with
  | NaN, _ | _, NaN => false
  | Fin x, Fin y => bool_decide (x < y)
  | _, NInf => false
  | NInf, _ => true
  | PInf, _ => false
  | _, PInf => true
  end.

(** [a > b] *)
Definition gt (a b : number) : bool := lt b a.

(** [a <= b] *)
Definition le (a b : number) : bool :=
  match a, b with
  | NaN, _ | _, NaN => false
  | Fin x, Fin y => bool_decide (x <= y)
  | NInf, _ => true
  | _, PInf => true
  | _, NInf => false
  | PInf, _ => false
  end.

(** ToBoolean: [0] and NaN are falsy. *)
Definition truthy (a : number) : bool :=
  match a with
  | Fin x => negb (bool_decide (x = 0))
  | PInf | NInf => true
  | NaN => false
  end.

(** [!a] *)
Definition not (a : number) : bool := negb (truthy a).

(** [Math.max(a, b)] *)
Definition Math_max (a b : number) : number :=
  match a, b with
  | NaN, _ | _, NaN => NaN
  | _, _ => if lt a b then b else a
  end.

(** [Math.min(a, b)] *)
Definition Math_min (a b : number) : number :=
  match a, b with
  | NaN, _ | _, NaN => NaN
  | _, _ => if lt b a then b else a
  end.

(** [Math.round(a)]: the integer nearest to [a], ties towards +Infinity. *)
Definition Math_round (a : number) : number :=
  match a with
  | Fin x => Fin (IZR (Zfloor (x + / 2)))
  | _ => a
  end.

(** Whether a real is an integer, and whether it is an odd one. *)
Definition is_integer (y : R) : bool := bool_decide (IZR (Zfloor y) = y).
Definition is_odd_integer (y : R) : bool := is_integer y && Z.odd (Zfloor y).

(** [Math.pow(base, exponent)], case by case as ECMAScript's
    Number::exponentiate lists them. *)
Definition Math_pow (base exponent : number) : number :=
  match exponent with
  | NaN => NaN
  | Fin y =>
      if bool_decide (y = 0) then Fin 1
      else
        match base with
        | NaN => NaN
        | PInf => if bool_decide (0 < y) then PInf else Fin 0
        | NInf =>
            if bool_decide (0 < y)
            then (if is_odd_integer y then NInf else PInf)
            else Fin 0
        | Fin x =>
            if bool_decide (x = 0) then
              (if bool_decide (0 < y) then Fin 0 else PInf)
            else if bool_decide (0 < x) then Fin (Rpower x y)
            else if is_integer y then Fin (powerRZ x (Zfloor y))
            else NaN
        end
  | PInf =>
      match base with
      | NaN => NaN
      | PInf | NInf => PInf
      | Fin x =>
          if bool_decide (1 < Rabs x) then PInf
          else if bool_decide (Rabs x = 1) then NaN
          else Fin 0
      end
  | NInf =>
      match base with
      | NaN => NaN
      | PInf | NInf => Fin 0
      | Fin x =>
          if bool_decide (1 < Rabs x) then Fin 0
          else if bool_decide (Rabs x = 1) then NaN
          else PInf
      end
  end.

End JS.

Import JS.

Declare Scope js_scope.
Delimit Scope js_scope with js.
Bind Scope js_scope with number.
Infix "+" := JS.add : js_scope.
Infix "-" := JS.sub : js_scope.
Infix "*" := JS.mul : js_scope.
Infix "/" := JS.div : js_scope.

(** ** The component state *)

(** [inputs]: the four form fields, each a number
    ([handleInputChange] stores [parseFloat(value) || 0]). *)
Record Inputs : Type := mkInputs {
  currentBalance : number;
  monthlyContribution : number;
  expectedReturn : number;
  yearsToRetirement : number
}.

(** [baseResult] *)
Record BaseResult : Type := mkBaseResult {
  projected_value : number;
  monthly_income : number
}.

(** An element of [scenarioData].  [monthlyIncome] is absent from the
    object literal and assigned by the [forEach] that follows it. *)
Record Scenario : Type := mkScenario {
  name : string;
  rate : number;
  projectedValue : number;
  color : string;
  monthlyIncome : option number
}.

(** A chart point: an object with the key [year] and one key per scenario
    name. *)
Abbreviation DataPoint := (gmap string number).

(** Error messages by field name. *)
Abbreviation Errors := (gmap string string).

Record AppState : Type := mkAppState {
  inputs : Inputs;
  results : option BaseResult;
  scenarios : list Scenario;
  chartData : list DataPoint;
  errors : Errors
}.

Definition setResults (v : option BaseResult) (st : AppState) : AppState :=
  mkAppState (inputs st) v (scenarios st) (chartData st) (errors st).
Definition setScenarios (v : list Scenario) (st : AppState) : AppState :=
  mkAppState (inputs st) (results st) v (chartData st) (errors st).
Definition setChartData (v : list DataPoint) (st : AppState) : AppState :=
  mkAppState (inputs st) (results st) (scenarios st) v (errors st).
Definition setErrors (v : Errors) (st : AppState) : AppState :=
  mkAppState (inputs st) (results st) (scenarios st) (chartData st) v.

(** The state of the first render: [useState] initial values. *)
Definition initialState : AppState :=
  mkAppState (mkInputs (Fin 50000) (Fin 1000) (Fin 7) (Fin 30)) None [] [] ∅.

(** ** The projection engine *)

(** [calculateFutureValue]:
    FV = P * (1 + r/n)^(n*t) + C * (((1 + r/n)^(n*t) - 1) / (r/n)). *)
Definition calculateFutureValue
    (principal monthlyContrib annualRate years : number) : number :=
  let r := (annualRate / Fin 100)%js in
  let n := Fin 12 in
  let t := years in
  let fvPrincipal := (principal * Math_pow (Fin 1 + r / n) (n * t))%js in
  let monthlyRate := (r / n)%js in
  let fvContributions :=
    (monthlyContrib * (Math_pow (Fin 1 + monthlyRate) (n * t) - Fin 1)
       / monthlyRate)%js in
  (fvPrincipal + fvContributions)%js.

(** [calculateMonthlyIncome]: the payment of a 20-year annuity at 4%. *)
Definition calculateMonthlyIncome (retirementBalance : number) : number :=
  let annualRate := Fin (4 / 100) in
  let monthlyRate := (annualRate / Fin 12)%js in
  let totalPayments := (Fin 20 * Fin 12)%js in
  let monthlyIncome :=
    (retirementBalance
       * (monthlyRate * Math_pow (Fin 1 + monthlyRate) totalPayments)
       / (Math_pow (Fin 1 + monthlyRate) totalPayments - Fin 1))%js in
  monthlyIncome.

(** [validateInputs]: four independent checks, each adding its own entry
    to [newErrors]. *)
Definition validateInputs (inputValues : Inputs) : Errors :=
  let newErrors : Errors := ∅ in
  let newErrors :=
    if JS.not (currentBalance inputValues)
       || lt (currentBalance inputValues) (Fin 0)
    then <["currentBalance" := "Current balance must be a positive number"]>
           newErrors
    else newErrors in
  let newErrors :=
    if lt (monthlyContribution inputValues) (Fin 0)
    then <["monthlyContribution" := "Monthly contribution cannot be negative"]>
           newErrors
    else newErrors in
  let newErrors :=
    if JS.not (expectedReturn inputValues)
       || lt (expectedReturn inputValues) (Fin (-20))
       || gt (expectedReturn inputValues) (Fin 50)
    then <["expectedReturn" :=
             "Expected return should be between -20% and 50%"]> newErrors
    else newErrors in
  let newErrors :=
    if JS.not (yearsToRetirement inputValues)
       || lt (yearsToRetirement inputValues) (Fin 1)
       || gt (yearsToRetirement inputValues) (Fin 70)
    then <["yearsToRetirement" :=
             "Years to retirement should be between 1 and 70"]> newErrors
    else newErrors in
  newErrors.

(** The three elements of [scenarioData] as the array literal builds them. *)
Definition scenarioLiteral (i : Inputs) (projectedValue : number)
  : list Scenario :=
  let conservativeRate := Math_max (expectedReturn i - Fin 2)%js (Fin 1) in
  let optimisticRate := (expectedReturn i + Fin 2)%js in
  [ mkScenario "Conservative" conservativeRate
      (calculateFutureValue (currentBalance i) (monthlyContribution i)
         conservativeRate (yearsToRetirement i))
      "#ef4444" None;
    mkScenario "Base Case" (expectedReturn i) projectedValue "#3b82f6" None;
    mkScenario "Optimistic" optimisticRate
      (calculateFutureValue (currentBalance i) (monthlyContribution i)
         optimisticRate (yearsToRetirement i))
      "#10b981" None ].

(** The body of [scenarioData.forEach(scenario => scenario.monthlyIncome =
    calculateMonthlyIncome(scenario.projectedValue))]. *)
Definition withMonthlyIncome (s : Scenario) : Scenario :=
  mkScenario (name s) (rate s) (projectedValue s) (color s)
    (Some (calculateMonthlyIncome (projectedValue s))).

(** The chart point of one year: [{ year }], then one assignment
    [dataPoint[scenario.name] = Math.round(balance)] per scenario. *)
Definition chartPoint (i : Inputs) (scenarioData : list Scenario) (year : Z)
  : DataPoint :=
  foldl
    (fun (dataPoint : DataPoint) scenario =>
       let balance :=
         calculateFutureValue (currentBalance i) (monthlyContribution i)
           (rate scenario) (Fin (IZR year)) in
       <[name scenario := Math_round balance]> dataPoint)
    ({["year" := Fin (IZR year)]} : DataPoint) scenarioData.

(** [for (let year = ...; year <= chartYears; year++) data.push(...)],
    from the current value of [year] on. *)
Fixpoint chartLoop (fuel : nat) (i : Inputs) (scenarioData : list Scenario)
    (chartYears : number) (year : Z) : list DataPoint :=
  match fuel with
  | O => []
  | S fuel' =>
      if le (Fin (IZR year)) chartYears
      then chartPoint i scenarioData year
             :: chartLoop fuel' i scenarioData chartYears (year + 1)
      else []
  end.

(** [chartYears] is at most 40, so the loop body runs at most 41 times
    (see [chartLoop_fuel] below: more fuel changes nothing). *)
Definition chartFuel : nat := 41.

(** [calculateResults]; [Object.keys(validationErrors).length > 0] is
    [0 < size validationErrors]. *)
Definition calculateResults (st : AppState) : AppState :=
  let validationErrors := validateInputs (inputs st) in
  let st := setErrors validationErrors st in
  if bool_decide (0 < size validationErrors)%nat then
    setChartData [] (setScenarios [] (setResults None st))
  else
    let i := inputs st in
    let projectedValue :=
      calculateFutureValue (currentBalance i) (monthlyContribution i)
        (expectedReturn i) (yearsToRetirement i) in
    let monthlyIncome := calculateMonthlyIncome projectedValue in
    let baseResult :=
      mkBaseResult
        (Math_round (projectedValue * Fin 100) / Fin 100)%js
        (Math_round (monthlyIncome * Fin 100) / Fin 100)%js in
    let st := setResults (Some baseResult) st in
    let scenarioData := scenarioLiteral i projectedValue in
    let scenarioData := map withMonthlyIncome scenarioData in
    let st := setScenarios scenarioData st in
    let chartYears := Math_min (yearsToRetirement i) (Fin 40) in
    let data := chartLoop chartFuel i scenarioData chartYears 0 in
    setChartData data st.

(** ** Auxiliary definitions for the statements *)

(** The four form fields, the key each one has in the error mapping, and
    the condition under which [validateInputs] records an error for it. *)
Inductive field : Type :=
  | CurrentBalance
  | MonthlyContribution
  | ExpectedReturn
  | YearsToRetirement.

#[global] Instance field_eq_dec : EqDecision field.
Proof. solve_decision. Defined.

Definition fields : list field :=
  [CurrentBalance; MonthlyContribution; ExpectedReturn; YearsToRetirement].

Definition key (f : field) : string :=
  match f with
  | CurrentBalance => "currentBalance"
  | MonthlyContribution => "monthlyContribution"
  | ExpectedReturn => "expectedReturn"
  | YearsToRetirement => "yearsToRetirement"
  end.

Definition message (f : field) : string :=
  match f with
  | CurrentBalance => "Current balance must be a positive number"
  | MonthlyContribution => "Monthly contribution cannot be negative"
  | ExpectedReturn => "Expected return should be between -20% and 50%"
  | YearsToRetirement => "Years to retirement should be between 1 and 70"
  end.

Definition violated (f : field) (i : Inputs) : bool :=
  match f with
  | CurrentBalance =>
      JS.not (currentBalance i) || lt (currentBalance i) (Fin 0)
  | MonthlyContribution => lt (monthlyContribution i) (Fin 0)
  | ExpectedReturn =>
      JS.not (expectedReturn i)
      || lt (expectedReturn i) (Fin (-20))
      || gt (expectedReturn i) (Fin 50)
  | YearsToRetirement =>
      JS.not (yearsToRetirement i)
      || lt (yearsToRetirement i) (Fin 1)
      || gt (yearsToRetirement i) (Fin 70)
  end.

(** The error mapping as a function of the outcome of the four checks. *)
Definition errorsOf (b1 b2 b3 b4 : bool) : Errors :=
  let e : Errors := ∅ in
  let e := if b1 then <["currentBalance" :=
                          "Current balance must be a positive number"]> e
           else e in
  let e := if b2 then <["monthlyContribution" :=
                          "Monthly contribution cannot be negative"]> e
           else e in
  let e := if b3 then <["expectedReturn" :=
                          "Expected return should be between -20% and 50%"]> e
           else e in
  let e := if b4 then <["yearsToRetirement" :=
                          "Years to retirement should be between 1 and 70"]> e
           else e in
  e.

(** The rules of the specification's table, on an input of finite
    values: when the rule of a field is broken. *)
Definition rule_broken (f : field) (cb mc er y : R) : Prop :=
  match f with
  | CurrentBalance => cb <= 0
  | MonthlyContribution => mc < 0
  | ExpectedReturn => er < -20 ∨ 50 < er
  | YearsToRetirement => y < 1 ∨ 70 < y
  end.


(** The growth factor of the annuity, [(1 + 0.04/12)^240], and the
    payment per unit of present value. *)
Definition annuityGrowth : R := Rpower (1 + 4 / 100 / 12) (20 * 12).
Definition annuityFactor : R :=
  4 / 100 / 12 * annuityGrowth / (annuityGrowth - 1).

(** The initial state with two other inputs: a 70-year horizon, and an
    expected return of -2. *)
Definition seventyYears : AppState :=
  mkAppState (mkInputs (Fin 50000) (Fin 1000) (Fin 7) (Fin 70)) None [] [] ∅.

Definition minusTwoPercent : AppState :=
  mkAppState (mkInputs (Fin 50000) (Fin 1000) (Fin (-2)) (Fin 30)) None [] [] ∅.

(** ** The rest of the component: yearly data, input handling, display *)

(** An element of the array [generateYearlyData] returns. *)
Record YearlyPoint : Type := mkYearlyPoint {
  year : number;
  balance : number
}.

(** The loop of [generateYearlyData],
    [for (let year = ...; year <= years; year++) data.push({year, balance})],
    from the current value of [year] on.  [years] is any number, so the
    loop has no bound of its own: [None] is a run that is still in the
    loop when the fuel is spent. *)
Fixpoint yearlyLoop (fuel : nat)
    (principal monthlyContrib annualRate years : number) (year : Z)
  : option (list YearlyPoint) :=
  match fuel with
  | O => None
  | S fuel' =>
      if le (Fin (IZR year)) years then
        let balance :=
          calculateFutureValue principal monthlyContrib annualRate
            (Fin (IZR year)) in
        match yearlyLoop fuel' principal monthlyContrib annualRate years
                (year + 1) with
        | Some data =>
            Some (mkYearlyPoint (Fin (IZR year)) (Math_round balance) :: data)
        | None => None
        end
      else Some []
  end.

(** [generateYearlyData] *)
Definition generateYearlyData (fuel : nat)
    (principal monthlyContrib annualRate years : number)
  : option (list YearlyPoint) :=
  yearlyLoop fuel principal monthlyContrib annualRate years 0.

(** [a || b] on numbers: [a] when it is truthy, [b] otherwise. *)
Definition logical_or (a b : number) : number := if truthy a then a else b.

(** The value of one field of [inputs], and [{...prev, [field]: v}] for
    the four field names the form passes. *)
Definition getField (f : field) (i : Inputs) : number :=
  match f with
  | CurrentBalance => currentBalance i
  | MonthlyContribution => monthlyContribution i
  | ExpectedReturn => expectedReturn i
  | YearsToRetirement => yearsToRetirement i
  end.

Definition setField (f : field) (v : number) (prev : Inputs) : Inputs :=
  match f with
  | CurrentBalance =>
      mkInputs v (monthlyContribution prev) (expectedReturn prev)
        (yearsToRetirement prev)
  | MonthlyContribution =>
      mkInputs (currentBalance prev) v (expectedReturn prev)
        (yearsToRetirement prev)
  | ExpectedReturn =>
      mkInputs (currentBalance prev) (monthlyContribution prev) v
        (yearsToRetirement prev)
  | YearsToRetirement =>
      mkInputs (currentBalance prev) (monthlyContribution prev)
        (expectedReturn prev) v
  end.

Definition setInputs (update : Inputs -> Inputs) (st : AppState) : AppState :=
  mkAppState (update (inputs st)) (results st) (scenarios st) (chartData st)
    (errors st).

(** [handleInputChange]; [parseFloat] is the built-in of the host, any
    function from strings to numbers. *)
Definition handleInputChange (parseFloat : string -> number)
    (f : field) (value : string) (st : AppState) : AppState :=
  let numericValue := logical_or (parseFloat value) (Fin 0) in
  setInputs (fun prev => setField f numericValue prev) st.

(** An [onChange] event of a form field: [handleInputChange], then the
    effect [useEffect(() => calculateResults(), [inputs])] of the render
    that follows. *)
Definition onChange (parseFloat : string -> number)
    (f : field) (value : string) (st : AppState) : AppState :=
  calculateResults (handleInputChange parseFloat f value st).

(** What the component renders conditionally: [{results && ...}],
    [{scenarios.length > 0 && ...}] and, per field,
    [{errors.field && ...}] (a string is truthy unless empty). *)
Definition showsResults (st : AppState) : bool :=
  match results st with Some _ => true | None => false end.

Definition showsScenarios (st : AppState) : bool :=
  bool_decide (0 < length (scenarios st))%nat.

Definition showsError (f : field) (st : AppState) : bool :=
  match errors st !! key f with
  | Some msg => negb (String.eqb msg "")
  | None => false
  end.

(** ** Auxiliary definitions for the statements, continued *)

(** The geometric sum [1 + x + ... + x^(n-1)]. *)
Fixpoint geometric (x : R) (n : nat) : R :=
  match n with
  | O => 0
  | S k => geometric x k + x ^ k
  end.

(** The balance of an annuity account after [n] months: interest at the
    monthly rate [rm] is credited, then the payment [pmt] is withdrawn. *)
Fixpoint annuityBalance (rm pmt pv : R) (n : nat) : R :=
  match n with
  | O => pv
  | S k => annuityBalance rm pmt pv k * (1 + rm) - pmt
  end.

Ltac decide_reals :=
  repeat (case_bool_decide; simpl in *; try lra; try done).

(** * Properties *)

(** ** Arithmetic on numbers *)

Lemma div_Fin (x y : R) : y <> 0 -> (Fin x / Fin y)%js = Fin (x / y).
Proof. intros Hy. unfold div. by rewrite bool_decide_eq_false_2. Qed.

Lemma div_zero_by_zero (x y : R) :
  x = 0 -> y = 0 -> (Fin x / Fin y)%js = NaN.
Proof.
  intros Hx Hy. unfold div, sign.
  by rewrite !bool_decide_eq_true_2.
Qed.

Lemma div_NaN_l (b : number) : (NaN / b)%js = NaN.
Proof. by destruct b. Qed.

Lemma add_NaN_r (a : number) : (a + NaN)%js = NaN.
Proof. by destruct a. Qed.

Lemma Rpower_base_1 (y : R) : Rpower 1 y = 1.
Proof. unfold Rpower. rewrite ln_1, Rmult_0_r. apply exp_0. Qed.


Lemma Math_pow_positive (x y : R) :
  0 < x -> Math_pow (Fin x) (Fin y) = Fin (Rpower x y).
Proof.
  intros Hx. unfold Math_pow.
  case_bool_decide as Hy.
  - subst y. by rewrite Rpower_O.
  - rewrite bool_decide_eq_false_2 by lra.
    by rewrite bool_decide_eq_true_2.
Qed.

Lemma Math_pow_base_1 (y : R) : Math_pow (Fin 1) (Fin y) = Fin 1.
Proof. rewrite Math_pow_positive by lra. by rewrite Rpower_base_1. Qed.

Lemma Math_pow_base_1_infinite (s : bool) :
  Math_pow (Fin 1) (inf s) = NaN.
Proof.
  destruct s; simpl; rewrite Rabs_R1;
    (rewrite bool_decide_eq_false_2 by lra);
    by rewrite bool_decide_eq_true_2.
Qed.

Lemma inf_times_positive_l (x : R) (s : bool) :
  0 < x -> (Fin x * inf s)%js = inf s.
Proof.
  intros Hx. destruct s; simpl; unfold inf_times, sign;
    (rewrite bool_decide_eq_false_2 by lra);
    by rewrite bool_decide_eq_true_2.
Qed.

Lemma inf_times_zero_r (s : bool) (x : R) :
  x = 0 -> (inf s * Fin x)%js = NaN.
Proof.
  intros ->. destruct s; simpl; unfold inf_times, sign;
    by rewrite bool_decide_eq_true_2.
Qed.

(** ** The future value at a zero rate *)

(** A zero annual rate makes the monthly rate zero and the growth factor
    one (or NaN), so the contribution term is [0 / 0]. *)
Lemma futureValue_rate_0 (principal monthlyContrib years : number) :
  calculateFutureValue principal monthlyContrib (Fin 0) years = NaN.
Proof.
  unfold calculateFutureValue.
  rewrite div_Fin by lra. rewrite div_Fin by lra.
  replace (0 / 100 / 12) with 0 by lra.
  replace (Fin 1 + Fin 0)%js with (Fin 1) by (simpl; f_equal; lra).
  assert (Hg : ∃ g, (Math_pow (Fin 1) (Fin 12 * years) - Fin 1)%js = g
                    ∧ (g = NaN ∨ g = Fin 0)).
  { eexists; split; [reflexivity|].
    destruct years as [t| | |];
      [| change PInf with (inf true) | change NInf with (inf false) |].
    - change (Fin 12 * Fin t)%js with (Fin (12 * t)).
      rewrite Math_pow_base_1. right. simpl. f_equal. lra.
    - left. rewrite (inf_times_positive_l 12) by lra.
      by rewrite Math_pow_base_1_infinite.
    - left. rewrite (inf_times_positive_l 12) by lra.
      by rewrite Math_pow_base_1_infinite.
    - by left. }
  destruct Hg as (g & -> & [-> | ->]).
  - replace (monthlyContrib * NaN)%js with NaN by (by destruct monthlyContrib).
    by rewrite div_NaN_l, add_NaN_r.
  - assert (Hc : (monthlyContrib * Fin 0)%js = NaN
                 ∨ ∃ z, (monthlyContrib * Fin 0)%js = Fin z ∧ z = 0).
    { destruct monthlyContrib as [c| | |]; simpl.
      - right. eexists; split; [done|lra].
      - left. by apply (inf_times_zero_r true).
      - left. by apply (inf_times_zero_r false).
      - by left. }
    destruct Hc as [-> | (z & -> & ->)].
    + by rewrite div_NaN_l, add_NaN_r.
    + rewrite div_zero_by_zero by done. by rewrite add_NaN_r.
Qed.

(** C1 (the code departs from the claim).  With an annual rate of exactly 0
    [calculateFutureValue] has no zero-rate branch: for every principal P,
    monthly contribution C and years t it returns NaN (the contribution
    term is 0 / 0), which is not the linear accumulation P + C*12*t. *)
Theorem C1_futureValue_zero_rate_is_NaN (P C t : R) :
  calculateFutureValue (Fin P) (Fin C) (Fin 0) (Fin t) = NaN
  ∧ calculateFutureValue (Fin P) (Fin C) (Fin 0) (Fin t)
      <> Fin (P + C * 12 * t).
Proof.
  rewrite futureValue_rate_0. split; [done | discriminate].
Qed.

(** ** The validator *)

Lemma validateInputs_errorsOf (i : Inputs) :
  validateInputs i =
  errorsOf (violated CurrentBalance i) (violated MonthlyContribution i)
           (violated ExpectedReturn i) (violated YearsToRetirement i).
Proof. reflexivity. Qed.

Lemma errorsOf_lookup (b1 b2 b3 b4 : bool) (f : field) :
  errorsOf b1 b2 b3 b4 !! key f =
  if match f with
     | CurrentBalance => b1
     | MonthlyContribution => b2
     | ExpectedReturn => b3
     | YearsToRetirement => b4
     end
  then Some (message f) else None.
Proof. by destruct b1, b2, b3, b4, f. Qed.

Lemma errorsOf_size (b1 b2 b3 b4 : bool) :
  size (errorsOf b1 b2 b3 b4) =
  (Nat.b2n b1 + Nat.b2n b2 + Nat.b2n b3 + Nat.b2n b4)%nat.
Proof. by destruct b1, b2, b3, b4. Qed.

Lemma validateInputs_lookup_eq (i : Inputs) (f : field) :
  validateInputs i !! key f =
  if violated f i then Some (message f) else None.
Proof.
  rewrite validateInputs_errorsOf, errorsOf_lookup. by destruct f.
Qed.

Lemma validateInputs_lookup (i : Inputs) (f : field) :
  is_Some (validateInputs i !! key f) <-> violated f i = true.
Proof.
  rewrite validateInputs_lookup_eq. destruct (violated f i); split;
    first [ done | by eexists | by intros [? ?] ].
Qed.

Lemma validateInputs_empty (i : Inputs) :
  validateInputs i = ∅ <-> forall f, violated f i = false.
Proof.
  split.
  - intros He f. destruct (violated f i) eqn:Hv; [|done].
    apply validateInputs_lookup in Hv. rewrite He in Hv.
    by destruct Hv as [? ?].
  - intros Hv. rewrite validateInputs_errorsOf.
    by rewrite (Hv CurrentBalance), (Hv MonthlyContribution),
               (Hv ExpectedReturn), (Hv YearsToRetirement).
Qed.

(** What each check means on a number. *)
Lemma violated_currentBalance (i : Inputs) :
  violated CurrentBalance i = false <->
  currentBalance i = PInf ∨ ∃ x, currentBalance i = Fin x ∧ 0 < x.
Proof.
  simpl. unfold JS.not. destruct (currentBalance i) as [x| | |]; simpl.
  - split.
    + intros H. right. exists x. split; [done|]. decide_reals.
    + intros [|(y & [= <-] & Hy)]; [done|]. decide_reals.
  - split; [by left | done].
  - split; [done|]. by intros [|(? & ? & ?)].
  - split; [done|]. by intros [|(? & ? & ?)].
Qed.

Lemma violated_monthlyContribution (i : Inputs) :
  violated MonthlyContribution i = false <->
  monthlyContribution i = PInf ∨ monthlyContribution i = NaN
  ∨ ∃ x, monthlyContribution i = Fin x ∧ 0 <= x.
Proof.
  simpl. destruct (monthlyContribution i) as [x| | |]; simpl.
  - split.
    + intros H. right; right. exists x. split; [done|]. decide_reals.
    + intros [|[|(y & [= <-] & Hy)]]; [done..|]. decide_reals.
  - split; [by left | done].
  - split; [done|]. by intros [|[|(? & ? & ?)]].
  - split; [by right; left | done].
Qed.

Lemma violated_expectedReturn (i : Inputs) :
  violated ExpectedReturn i = false <->
  ∃ x, expectedReturn i = Fin x ∧ x <> 0 ∧ -20 <= x <= 50.
Proof.
  simpl. unfold JS.not, gt. destruct (expectedReturn i) as [x| | |]; simpl.
  - split.
    + intros H. exists x. split; [done|]. decide_reals.
    + intros (y & [= <-] & Hy & Hy'). decide_reals.
  - split; [done|]. by intros (? & ? & ?).
  - split; [done|]. by intros (? & ? & ?).
  - split; [done|]. by intros (? & ? & ?).
Qed.

Lemma violated_yearsToRetirement (i : Inputs) :
  violated YearsToRetirement i = false <->
  ∃ x, yearsToRetirement i = Fin x ∧ 1 <= x <= 70.
Proof.
  simpl. unfold JS.not, gt. destruct (yearsToRetirement i) as [x| | |]; simpl.
  - split.
    + intros H. exists x. split; [done|]. decide_reals.
    + intros (y & [= <-] & Hy). decide_reals.
  - split; [done|]. by intros (? & ? & ?).
  - split; [done|]. by intros (? & ? & ?).
  - split; [done|]. by intros (? & ? & ?).
Qed.

(** An input of finite values passes the validator exactly when the
    balance is positive, the contribution non-negative, the return is a
    non-zero value of [-20, 50] and the years lie in [1, 70]. *)
Lemma validateInputs_accepts (cb mc er y : R) :
  validateInputs (mkInputs (Fin cb) (Fin mc) (Fin er) (Fin y)) = ∅ <->
  0 < cb ∧ 0 <= mc ∧ (er <> 0 ∧ -20 <= er <= 50) ∧ 1 <= y <= 70.
Proof.
  rewrite validateInputs_empty. split.
  - intros Hv.
    pose proof (proj1 (violated_currentBalance _) (Hv CurrentBalance)) as H1.
    pose proof (proj1 (violated_monthlyContribution _)
                  (Hv MonthlyContribution)) as H2.
    pose proof (proj1 (violated_expectedReturn _) (Hv ExpectedReturn)) as H3.
    pose proof (proj1 (violated_yearsToRetirement _)
                  (Hv YearsToRetirement)) as H4.
    simpl in *.
    destruct H1 as [? | (? & [= <-] & ?)]; [done|].
    destruct H2 as [? | [? | (? & [= <-] & ?)]]; [done..|].
    destruct H3 as (? & [= <-] & ? & ?).
    destruct H4 as (? & [= <-] & ?). done.
  - intros (H1 & H2 & H3 & H4) [].
    + apply violated_currentBalance. right. by eexists.
    + apply violated_monthlyContribution. right; right. by eexists.
    + apply violated_expectedReturn. by eexists.
    + apply violated_yearsToRetirement. by eexists.
Qed.

(** The lower end of the range is accepted and a value just below it is
    rejected. *)
Example expectedReturn_minus_20_accepted :
  validateInputs (mkInputs (Fin 50000) (Fin 1000) (Fin (-20)) (Fin 30)) = ∅.
Proof. apply validateInputs_accepts. lra. Qed.

Example expectedReturn_below_minus_20_rejected :
  validateInputs (mkInputs (Fin 50000) (Fin 1000) (Fin (-2001 / 100)) (Fin 30))
    !! "expectedReturn"
  = Some "Expected return should be between -20% and 50%".
Proof.
  rewrite (validateInputs_lookup_eq _ ExpectedReturn).
  destruct (violated ExpectedReturn _) eqn:H; [done|].
  apply violated_expectedReturn in H as (x & [= <-] & _ & ?). lra.
Qed.

(** For a finite expected return [x] the validator records no error for
    the field exactly when [x] is a non-zero value of [-20, 50]. *)
Lemma expectedReturn_accepted_iff (cb mc y : number) (x : R) :
  validateInputs (mkInputs cb mc (Fin x) y) !! "expectedReturn" = None
  <-> x <> 0 ∧ -20 <= x <= 50.
Proof.
  rewrite (validateInputs_lookup_eq _ ExpectedReturn).
  destruct (violated ExpectedReturn _) eqn:H.
  - split; [done|]. intros Hx.
    apply not_false_iff_true in H. destruct H.
    apply violated_expectedReturn. by exists x.
  - split; [|done]. intros _.
    by apply violated_expectedReturn in H as (? & [= <-] & ?).
Qed.

(** C4 (the code departs from the claim).  An expected return of 0 lies in
    [-20, 50], yet [!inputValues.expectedReturn] holds for it: whatever
    the other fields are, the validator records the range error for the
    field. *)
Theorem C4_expectedReturn_zero_rejected (cb mc y : number) :
  validateInputs (mkInputs cb mc (Fin 0) y) !! "expectedReturn"
  = Some "Expected return should be between -20% and 50%".
Proof.
  rewrite (validateInputs_lookup_eq _ ExpectedReturn).
  destruct (violated ExpectedReturn _) eqn:H; [done|].
  by apply violated_expectedReturn in H as (x & [= <-] & ? & _).
Qed.

(** On finite values, a broken rule of the specification's table makes
    the corresponding check of [validateInputs] fail. *)
Lemma rule_broken_violated (f : field) (cb mc er y : R) :
  rule_broken f cb mc er y ->
  violated f (mkInputs (Fin cb) (Fin mc) (Fin er) (Fin y)) = true.
Proof.
  intros Hf. apply not_false_iff_true. intros Hv. destruct f; simpl in Hf.
  - apply violated_currentBalance in Hv as [[=] | (x & [= <-] & ?)]. lra.
  - apply violated_monthlyContribution in Hv
      as [[=] | [[=] | (x & [= <-] & ?)]]. lra.
  - apply violated_expectedReturn in Hv as (x & [= <-] & _ & ?). lra.
  - apply violated_yearsToRetirement in Hv as (x & [= <-] & ?). lra.
Qed.

(** C5.  The checks of [validateInputs] are independent: the error mapping
    has an entry for a field exactly when that field's own check fails,
    whatever the other fields are, so the mapping has as many entries as
    there are failing checks; in particular an input of finite values
    that breaks several rules of the table at once has the entry of each
    broken rule. *)
Theorem C5_validation_reports_every_violation (i : Inputs) :
  (forall f, violated f i = true <-> is_Some (validateInputs i !! key f))
  ∧ size (validateInputs i) = length (filter (λ f, violated f i = true) fields)
  ∧ (forall cb mc er y : R,
       i = mkInputs (Fin cb) (Fin mc) (Fin er) (Fin y) ->
       forall f, rule_broken f cb mc er y ->
                 validateInputs i !! key f = Some (message f)).
Proof.
  split; [|split].
  - intros f. symmetry. apply validateInputs_lookup.
  - rewrite validateInputs_errorsOf, errorsOf_size. unfold fields.
    rewrite !filter_cons, filter_nil.
    by destruct (violated CurrentBalance i), (violated MonthlyContribution i),
      (violated ExpectedReturn i), (violated YearsToRetirement i).
  - intros cb mc er y -> f Hf.
    by rewrite validateInputs_lookup_eq, rule_broken_violated.
Qed.

(** The example of the specification: a negative balance together with
    zero years gives both entries at once. *)
Example validation_two_violations (mc er : number) :
  let errs := validateInputs (mkInputs (Fin (-1)) mc er (Fin 0)) in
  errs !! "currentBalance" = Some "Current balance must be a positive number"
  ∧ errs !! "yearsToRetirement"
    = Some "Years to retirement should be between 1 and 70".
Proof.
  intros errs. subst errs.
  rewrite (validateInputs_lookup_eq _ CurrentBalance),
    (validateInputs_lookup_eq _ YearsToRetirement).
  split.
  - destruct (violated CurrentBalance _) eqn:H; [done|].
    apply violated_currentBalance in H as [[=] | (x & [= <-] & ?)]. lra.
  - destruct (violated YearsToRetirement _) eqn:H; [done|].
    apply violated_yearsToRetirement in H as (x & [= <-] & ?). lra.
Qed.

(** ** The two outcomes of [calculateResults] *)

Lemma calculateResults_rejected (st : AppState) :
  validateInputs (inputs st) <> ∅ ->
  calculateResults st
  = mkAppState (inputs st) None [] [] (validateInputs (inputs st)).
Proof.
  intros He. unfold calculateResults.
  rewrite bool_decide_eq_true_2; [done|].
  apply map_size_non_empty_iff in He. simpl. lia.
Qed.

Lemma calculateResults_accepted (st : AppState) :
  validateInputs (inputs st) = ∅ ->
  let i := inputs st in
  let projectedValue :=
    calculateFutureValue (currentBalance i) (monthlyContribution i)
      (expectedReturn i) (yearsToRetirement i) in
  let scenarioData := map withMonthlyIncome (scenarioLiteral i projectedValue) in
  calculateResults st
  = mkAppState i
      (Some (mkBaseResult
               (Math_round (projectedValue * Fin 100) / Fin 100)%js
               (Math_round (calculateMonthlyIncome projectedValue * Fin 100)
                  / Fin 100)%js))
      scenarioData
      (chartLoop chartFuel i scenarioData
         (Math_min (yearsToRetirement i) (Fin 40)) 0)
      ∅.
Proof.
  intros He. unfold calculateResults. rewrite He.
  rewrite bool_decide_eq_false_2; [done|].
  rewrite map_size_empty. lia.
Qed.

(** ** The chart loop *)

Lemma le_Zfloor (k : Z) (c : R) : IZR k <= c <-> (k <= Zfloor c)%Z.
Proof.
  split.
  - apply Zfloor_lub.
  - intros Hk. apply IZR_le in Hk.
    pose proof (Zfloor_bound c). lra.
Qed.

(** With enough fuel to reach the bound, the loop yields one point per
    integer of [year .. floor c], in increasing order. *)
Lemma chartLoop_Fin (fuel : nat) (i : Inputs) (sd : list Scenario)
    (c : R) (year : Z) :
  c < IZR (year + Z.of_nat fuel) ->
  chartLoop fuel i sd (Fin c) year
  = chartPoint i sd <$> seqZ year (Zfloor c + 1 - year).
Proof.
  revert year. induction fuel as [|fuel IH]; intros year Hfuel.
  - simpl. rewrite Z.add_0_r in Hfuel.
    assert (Zfloor c < year)%Z.
    { apply Z.nle_gt. intros Hk. apply le_Zfloor in Hk. lra. }
    by rewrite seqZ_nil by lia.
  - simpl. case_bool_decide as Hle.
    + apply le_Zfloor in Hle.
      rewrite seqZ_cons by lia. rewrite fmap_cons. f_equal.
      rewrite IH.
      * do 2 f_equal; lia.
      * replace (year + 1 + Z.of_nat fuel)%Z
          with (year + Z.of_nat (S fuel))%Z by lia. done.
    + assert (Zfloor c < year)%Z.
      { apply Z.nle_gt. intros Hk. by apply le_Zfloor in Hk. }
      by rewrite seqZ_nil by lia.
Qed.

Lemma chartLoop_no_bound (fuel : nat) (i : Inputs) (sd : list Scenario)
    (c : number) (year : Z) :
  c = NInf ∨ c = NaN -> chartLoop fuel i sd c year = [].
Proof. intros [-> | ->]; by destruct fuel. Qed.

(** [Math.min(years, 40)] is never above 40. *)
Lemma chartYears_cases (years : number) :
  (∃ c, Math_min years (Fin 40) = Fin c ∧ c <= 40)
  ∨ Math_min years (Fin 40) = NInf ∨ Math_min years (Fin 40) = NaN.
Proof.
  destruct years as [y| | |]; simpl.
  - left. case_bool_decide; eexists; split; try done; lra.
  - left. eexists; split; [done|lra].
  - right; by left.
  - right; by right.
Qed.

(** The fuel of [chartFuel] is never what ends the loop: any larger
    amount gives the same series. *)
Lemma chartLoop_fuel (fuel : nat) (i : Inputs) (sd : list Scenario)
    (years : number) :
  (chartFuel <= fuel)%nat ->
  chartLoop fuel i sd (Math_min years (Fin 40)) 0
  = chartLoop chartFuel i sd (Math_min years (Fin 40)) 0.
Proof.
  intros Hfuel.
  destruct (chartYears_cases years) as [(c & -> & Hc) | Hno].
  - assert (Hc' : c < IZR (0 + Z.of_nat chartFuel)).
    { replace (0 + Z.of_nat chartFuel)%Z with 41%Z by (unfold chartFuel; lia).
      lra. }
    rewrite !chartLoop_Fin; [done | done |].
    apply Rlt_le_trans with (IZR (0 + Z.of_nat chartFuel)); [done|].
    apply IZR_le. lia.
  - by rewrite !chartLoop_no_bound.
Qed.

Lemma chartLoop_fuel_witness :
  chartLoop 100 (inputs seventyYears) [] (Math_min (Fin 70) (Fin 40)) 0
  = chartLoop chartFuel (inputs seventyYears) [] (Math_min (Fin 70) (Fin 40)) 0.
Proof. apply chartLoop_fuel. unfold chartFuel. lia. Defined.

Lemma sub_Fin (x y : R) : (Fin x - Fin y)%js = Fin (x - y).
Proof. reflexivity. Qed.

Lemma Math_min_Fin (y c : R) : Math_min (Fin y) (Fin c) = Fin (Rmin y c).
Proof.
  simpl. unfold Rmin. case_bool_decide; destruct (Rle_dec y c); f_equal; lra.
Qed.

Lemma Math_max_Fin (x c : R) : Math_max (Fin x) (Fin c) = Fin (Rmax x c).
Proof.
  simpl. unfold Rmax. case_bool_decide; destruct (Rle_dec x c); f_equal; lra.
Qed.

(** ** Scenarios and chart series of an accepted input *)

Lemma accepted_expectedReturn (i : Inputs) :
  validateInputs i = ∅ ->
  ∃ b, expectedReturn i = Fin b ∧ b <> 0 ∧ -20 <= b <= 50.
Proof.
  intros He. apply violated_expectedReturn.
  by apply validateInputs_empty.
Qed.

Lemma accepted_yearsToRetirement (i : Inputs) :
  validateInputs i = ∅ -> ∃ y, yearsToRetirement i = Fin y ∧ 1 <= y <= 70.
Proof.
  intros He. apply violated_yearsToRetirement.
  by apply validateInputs_empty.
Qed.

Lemma scenarios_accepted (st : AppState) :
  validateInputs (inputs st) = ∅ ->
  let i := inputs st in
  let fv rate :=
    calculateFutureValue (currentBalance i) (monthlyContribution i) rate
      (yearsToRetirement i) in
  let conservativeRate := Math_max (expectedReturn i - Fin 2)%js (Fin 1) in
  let optimisticRate := (expectedReturn i + Fin 2)%js in
  scenarios (calculateResults st)
  = [ mkScenario "Conservative" conservativeRate (fv conservativeRate)
        "#ef4444" (Some (calculateMonthlyIncome (fv conservativeRate)));
      mkScenario "Base Case" (expectedReturn i) (fv (expectedReturn i))
        "#3b82f6" (Some (calculateMonthlyIncome (fv (expectedReturn i))));
      mkScenario "Optimistic" optimisticRate (fv optimisticRate)
        "#10b981" (Some (calculateMonthlyIncome (fv optimisticRate))) ].
Proof. intros He. by rewrite calculateResults_accepted. Qed.

Lemma chartData_accepted (st : AppState) (y : R) :
  validateInputs (inputs st) = ∅ ->
  yearsToRetirement (inputs st) = Fin y ->
  chartData (calculateResults st)
  = chartPoint (inputs st) (scenarios (calculateResults st))
      <$> seqZ 0 (Zfloor (Rmin y 40) + 1).
Proof.
  intros He Hy. rewrite calculateResults_accepted by done.
  cbn [chartData scenarios].
  rewrite Hy, Math_min_Fin, chartLoop_Fin.
  - by rewrite Z.sub_0_r.
  - replace (0 + Z.of_nat chartFuel)%Z with 41%Z by (unfold chartFuel; lia).
    pose proof (Rmin_r y 40). lra.
Qed.

(** The point of one year holds the year and the rounded balance of each
    of the three scenarios. *)
Lemma chartPoint_lookup (i : Inputs) (s1 s2 s3 : Scenario) (k : Z) :
  name s1 = "Conservative" -> name s2 = "Base Case" ->
  name s3 = "Optimistic" ->
  let balance s :=
    Math_round (calculateFutureValue (currentBalance i)
                  (monthlyContribution i) (rate s) (Fin (IZR k))) in
  let p := chartPoint i [s1; s2; s3] k in
  p !! "year" = Some (Fin (IZR k))
  ∧ p !! name s1 = Some (balance s1)
  ∧ p !! name s2 = Some (balance s2)
  ∧ p !! name s3 = Some (balance s3).
Proof.
  intros H1 H2 H3 balance p. subst p balance. unfold chartPoint. simpl.
  rewrite H1, H2, H3. by simplify_map_eq.
Qed.

Lemma Math_round_nearest (x : R) :
  ∃ n : Z, Math_round (Fin x) = Fin (IZR n) ∧ Rabs (IZR n - x) <= / 2.
Proof.
  exists (Zfloor (x + / 2)). split; [done|].
  pose proof (Zfloor_bound (x + / 2)).
  apply Rabs_le. lra.
Qed.

(** C6.  [calculateResults] stores the validator's mapping and then has
    exactly two outcomes.  A non-empty mapping clears every derived result
    (no result, no scenario, no chart point: nothing is computed); an empty
    one yields the complete set: a base result, the three scenarios each
    with its monthly income, and a chart series that starts at year 0. *)
Theorem C6_results_cleared_or_complete (st : AppState) :
  let st' := calculateResults st in
  inputs st' = inputs st
  ∧ errors st' = validateInputs (inputs st)
  ∧ ((errors st' <> ∅
      ∧ results st' = None ∧ scenarios st' = [] ∧ chartData st' = [])
     ∨ (errors st' = ∅
        ∧ is_Some (results st')
        ∧ length (scenarios st') = 3%nat
        ∧ Forall (λ s, is_Some (monthlyIncome s)) (scenarios st')
        ∧ ∃ p, chartData st' !! 0%nat = Some p
               ∧ p !! "year" = Some (Fin 0))).
Proof.
  intros st'. subst st'.
  destruct (decide (validateInputs (inputs st) = ∅)) as [He | He].
  - split; [by rewrite calculateResults_accepted|].
    split; [by rewrite calculateResults_accepted|].
    right.
    split; [by rewrite calculateResults_accepted|].
    split; [by rewrite calculateResults_accepted|].
    split; [by rewrite scenarios_accepted|].
    split.
    { rewrite scenarios_accepted by done. by repeat constructor. }
    destruct (accepted_yearsToRetirement _ He) as (y & Hy & Hy1 & Hy70).
    rewrite (chartData_accepted st y) by done.
    assert (0 < Zfloor (Rmin y 40) + 1)%Z.
    { assert (0 <= Zfloor (Rmin y 40))%Z; [|lia].
      apply le_Zfloor. apply Rmin_glb; lra. }
    rewrite seqZ_cons by lia. rewrite fmap_cons.
    eexists. split; [done|].
    rewrite scenarios_accepted by done.
    by apply chartPoint_lookup.
  - rewrite calculateResults_rejected by done. simpl.
    do 2 (split; [done|]). by left.
Qed.

(** C7.  For a validated input with base rate b the scenario list has
    exactly three elements, named Conservative, Base Case and Optimistic
    in this order, with the annual rates max(b - 2, 1), b and b + 2. *)
Theorem C7_three_scenarios_and_rates (st : AppState) :
  validateInputs (inputs st) = ∅ ->
  ∃ b : R,
    expectedReturn (inputs st) = Fin b
    ∧ name <$> scenarios (calculateResults st)
      = ["Conservative"; "Base Case"; "Optimistic"]
    ∧ rate <$> scenarios (calculateResults st)
      = [Fin (Rmax (b - 2) 1); Fin b; Fin (b + 2)].
Proof.
  intros He.
  destruct (accepted_expectedReturn _ He) as (b & Hb & _).
  exists b. split; [done|].
  rewrite scenarios_accepted by done. rewrite Hb. split; [done|].
  by rewrite sub_Fin, Math_max_Fin.
Qed.

Lemma C7_three_scenarios_and_rates_witness :
  ∃ b : R,
    expectedReturn (inputs initialState) = Fin b
    ∧ name <$> scenarios (calculateResults initialState)
      = ["Conservative"; "Base Case"; "Optimistic"]
    ∧ rate <$> scenarios (calculateResults initialState)
      = [Fin (Rmax (b - 2) 1); Fin b; Fin (b + 2)].
Proof.
  apply (C7_three_scenarios_and_rates initialState).
  apply validateInputs_accepts. lra.
Defined.

(** C8.  For a validated input the chart series has exactly one point per
    whole year from 0 to min(yearsToRetirement, 40), in increasing order
    (41 points when yearsToRetirement is 70); the point of year k holds,
    under each scenario's name, the future value after k years at that
    scenario's rate, rounded by [Math.round]; and the projected value of
    each scenario is the future value after the full yearsToRetirement. *)
Theorem C8_chart_series (st : AppState) :
  validateInputs (inputs st) = ∅ ->
  let i := inputs st in
  let st' := calculateResults st in
  let fv rate years :=
    calculateFutureValue (currentBalance i) (monthlyContribution i)
      rate years in
  ∃ y : R,
    yearsToRetirement i = Fin y
    ∧ let last := Zfloor (Rmin y 40) in
      (IZR last <= Rmin y 40 < IZR last + 1)
      ∧ length (chartData st') = Z.to_nat (last + 1)
      ∧ (forall k : Z, (0 <= k <= last)%Z ->
           ∃ p, chartData st' !! Z.to_nat k = Some p
                ∧ p !! "year" = Some (Fin (IZR k))
                ∧ forall s, s ∈ scenarios st' ->
                    p !! name s = Some (Math_round (fv (rate s) (Fin (IZR k)))))
      ∧ (forall s, s ∈ scenarios st' ->
           projectedValue s = fv (rate s) (yearsToRetirement i))
      ∧ (y = 70 -> length (chartData st') = 41%nat).
Proof.
  intros He i st' fv.
  destruct (accepted_yearsToRetirement _ He) as (y & Hy & Hy1 & Hy70).
  exists y. split; [done|]. intros last.
  assert (Hlast : (0 <= last)%Z).
  { apply le_Zfloor. apply Rmin_glb; lra. }
  assert (Hdata : chartData st'
                  = chartPoint i (scenarios st') <$> seqZ 0 (last + 1))
    by by apply chartData_accepted.
  assert (Hlen : length (chartData st') = Z.to_nat (last + 1)).
  { by rewrite Hdata, length_fmap, length_seqZ. }
  split; [apply Zfloor_bound|].
  split; [done|].
  split; [|split].
  - intros k Hk. eexists. split.
    { rewrite Hdata, list_lookup_fmap.
      rewrite (lookup_seqZ_lt 0 (last + 1) (Z.to_nat k)) by lia.
      simpl. by rewrite Z2Nat.id by lia. }
    subst st'. rewrite scenarios_accepted by done.
    match goal with
    | |- context [chartPoint _ [?s1; ?s2; ?s3] _] =>
        destruct (chartPoint_lookup i s1 s2 s3 k) as (Hyear & H1 & H2 & H3);
          [done..|]
    end.
    split; [done|]. intros s Hs.
    apply elem_of_cons in Hs as [-> | Hs]; [done|].
    apply elem_of_cons in Hs as [-> | Hs]; [done|].
    apply elem_of_cons in Hs as [-> | Hs]; [done|].
    by apply elem_of_nil in Hs.
  - subst st'. rewrite scenarios_accepted by done. intros s Hs.
    apply elem_of_cons in Hs as [-> | Hs]; [done|].
    apply elem_of_cons in Hs as [-> | Hs]; [done|].
    apply elem_of_cons in Hs as [-> | Hs]; [done|].
    by apply elem_of_nil in Hs.
  - intros ->. rewrite Hlen. subst last.
    replace (Rmin 70 40) with (IZR 40) by (by rewrite Rmin_right by lra).
    by rewrite ZfloorZ.
Qed.

Lemma C8_chart_series_witness :
  length (chartData (calculateResults seventyYears)) = 41%nat.
Proof.
  assert (He : validateInputs (inputs seventyYears) = ∅).
  { apply validateInputs_accepts. lra. }
  destruct (C8_chart_series seventyYears He) as (y & Hy & _ & _ & _ & _ & H).
  apply H. simpl in Hy. by injection Hy as <-.
Defined.

(** ** The optimistic scenario of a -2% expected return *)

Lemma calculateMonthlyIncome_NaN : calculateMonthlyIncome NaN = NaN.
Proof. unfold calculateMonthlyIncome. by rewrite div_NaN_l. Qed.

Lemma optimisticRate_0 : (Fin (-2) + Fin 2)%js = Fin 0.
Proof. simpl. f_equal. lra. Qed.

(** An expected return of -2 passes the validator; the optimistic rate is
    then [-2 + 2 = 0] and goes to [calculateFutureValue] as it is. *)
Lemma optimistic_scenario_NaN (st : AppState) :
  validateInputs (inputs st) = ∅ ->
  expectedReturn (inputs st) = Fin (-2) ->
  scenarios (calculateResults st) !! 2%nat
  = Some (mkScenario "Optimistic" (Fin 0) NaN "#10b981" (Some NaN)).
Proof.
  intros He Hr. rewrite scenarios_accepted by done.
  rewrite Hr, optimisticRate_0, futureValue_rate_0.
  by rewrite calculateMonthlyIncome_NaN.
Qed.

Lemma optimistic_chart_NaN (st : AppState) (p : DataPoint) :
  validateInputs (inputs st) = ∅ ->
  expectedReturn (inputs st) = Fin (-2) ->
  p ∈ chartData (calculateResults st) ->
  p !! "Optimistic" = Some NaN.
Proof.
  intros He Hr Hp.
  destruct (accepted_yearsToRetirement _ He) as (y & Hy & _).
  rewrite (chartData_accepted st y) in Hp by done.
  apply list_elem_of_fmap in Hp as (k & -> & _).
  rewrite scenarios_accepted by done.
  match goal with
  | |- context [chartPoint ?i [?s1; ?s2; ?s3] _] =>
      destruct (chartPoint_lookup i s1 s2 s3 k) as (_ & _ & _ & H3);
        [done..|]
  end.
  cbn [name rate] in H3. rewrite H3.
  by rewrite Hr, optimisticRate_0, futureValue_rate_0.
Qed.

Lemma minusTwoPercent_accepted : validateInputs (inputs minusTwoPercent) = ∅.
Proof. apply validateInputs_accepts. lra. Qed.

(** C10.  Every input that passes the validator with an expected return of
    -2 (such inputs exist: see the witness) gets an optimistic scenario
    whose rate is exactly 0; that rate goes unchanged to
    [calculateFutureValue], whose contribution term is then [0 / 0], so
    the scenario's projected value and monthly income are NaN. *)
Theorem C10_optimistic_rate_zero (st : AppState) :
  validateInputs (inputs st) = ∅ ->
  expectedReturn (inputs st) = Fin (-2) ->
  ∃ s : Scenario,
    scenarios (calculateResults st) !! 2%nat = Some s
    ∧ name s = "Optimistic"
    ∧ rate s = (expectedReturn (inputs st) + Fin 2)%js
    ∧ rate s = Fin 0
    ∧ projectedValue s
      = calculateFutureValue (currentBalance (inputs st))
          (monthlyContribution (inputs st)) (rate s)
          (yearsToRetirement (inputs st))
    ∧ projectedValue s = NaN
    ∧ monthlyIncome s = Some NaN.
Proof.
  intros He Hr. eexists. split; [by apply optimistic_scenario_NaN|].
  cbn [name rate projectedValue monthlyIncome].
  rewrite Hr, optimisticRate_0, futureValue_rate_0. done.
Qed.

Lemma C10_optimistic_rate_zero_witness :
  ∃ s : Scenario,
    scenarios (calculateResults minusTwoPercent) !! 2%nat = Some s
    ∧ rate s = Fin 0 ∧ projectedValue s = NaN ∧ monthlyIncome s = Some NaN.
Proof.
  destruct (C10_optimistic_rate_zero minusTwoPercent minusTwoPercent_accepted
              eq_refl) as (s & Hs & _ & _ & Hrate & _ & Hpv & Hmi).
  by exists s.
Defined.

(** C2 (the code departs from the claim).  The input
    [{50000, 1000, -2, 30}] passes the validator, and the optimistic
    scenario computed for it has a projected value and a monthly income
    that are NaN, as is its balance at every point of the chart series:
    monetary outputs that are not finite reals. *)
Theorem C2_accepted_input_with_NaN_outputs :
  validateInputs (inputs minusTwoPercent) = ∅
  ∧ (∃ s : Scenario,
       s ∈ scenarios (calculateResults minusTwoPercent)
       ∧ name s = "Optimistic"
       ∧ ¬ is_finite (projectedValue s)
       ∧ monthlyIncome s = Some NaN)
  ∧ (forall p : DataPoint,
       p ∈ chartData (calculateResults minusTwoPercent) ->
       p !! "Optimistic" = Some NaN).
Proof.
  split; [apply minusTwoPercent_accepted|]. split.
  - eexists. split.
    + eapply list_elem_of_lookup_2.
      by apply optimistic_scenario_NaN; [apply minusTwoPercent_accepted|].
    + simpl. by repeat split; try intros [].
  - intros p Hp.
    by apply (optimistic_chart_NaN minusTwoPercent p
                minusTwoPercent_accepted).
Qed.

(** ** Zero elapsed years *)



(** C3 (the code departs from the claim).  For every principal P,
    [calculateFutureValue(P, 0, 0, 0)] is NaN and not P: at the annual
    rate 0 the contribution term is [0 / 0] even with no contribution and
    zero years. *)
Theorem C3_zero_years_zero_rate_is_NaN (P : R) :
  calculateFutureValue (Fin P) (Fin 0) (Fin 0) (Fin 0) = NaN
  ∧ calculateFutureValue (Fin P) (Fin 0) (Fin 0) (Fin 0) <> Fin P.
Proof.
  rewrite futureValue_rate_0. split; [done | discriminate].
Qed.

(** ** The annuity conversion *)

Lemma annuityGrowth_gt_1 : 1 < annuityGrowth.
Proof.
  unfold annuityGrowth.
  rewrite <- (Rpower_O (1 + 4 / 100 / 12)) at 1 by lra.
  apply Rpower_lt; lra.
Qed.

Lemma annuityFactor_pos : 0 < annuityFactor.
Proof.
  pose proof annuityGrowth_gt_1. unfold annuityFactor.
  apply Rdiv_lt_0_compat; [|lra].
  apply Rmult_lt_0_compat; lra.
Qed.

Lemma calculateMonthlyIncome_Fin (pv : R) :
  calculateMonthlyIncome (Fin pv) = Fin (annuityFactor * pv).
Proof.
  pose proof annuityGrowth_gt_1 as Hg.
  unfold calculateMonthlyIncome.
  rewrite div_Fin by lra.
  change (Fin 20 * Fin 12)%js with (Fin (20 * 12)).
  change (Fin 1 + Fin (4 / 100 / 12))%js with (Fin (1 + 4 / 100 / 12)).
  rewrite Math_pow_positive by lra. fold annuityGrowth.
  rewrite sub_Fin.
  change (Fin pv * (Fin (4 / 100 / 12) * Fin annuityGrowth))%js
    with (Fin (pv * (4 / 100 / 12 * annuityGrowth))).
  rewrite div_Fin by lra. f_equal. unfold annuityFactor. field. lra.
Qed.

(** C9.  There is a constant k > 0, the payment per unit of present value
    of the 4% / 240-payment annuity, with monthlyIncome(PV) = k * PV for
    every real PV; hence monthlyIncome(0) = 0 and monthlyIncome is
    strictly increasing. *)
Theorem C9_monthlyIncome_linear :
  ∃ k : R,
    0 < k
    ∧ (forall pv : R, calculateMonthlyIncome (Fin pv) = Fin (k * pv))
    ∧ calculateMonthlyIncome (Fin 0) = Fin 0
    ∧ (forall a b : R, a < b ->
         ∃ x y, calculateMonthlyIncome (Fin a) = Fin x
                ∧ calculateMonthlyIncome (Fin b) = Fin y
                ∧ x < y).
Proof.
  exists annuityFactor. pose proof annuityFactor_pos as Hk.
  split; [done|]. split; [apply calculateMonthlyIncome_Fin|]. split.
  - rewrite calculateMonthlyIncome_Fin. f_equal. lra.
  - intros a b Hab. do 2 eexists.
    split; [apply calculateMonthlyIncome_Fin|].
    split; [apply calculateMonthlyIncome_Fin|]. nra.
Qed.

(** ** Outputs on the validated domain, away from the zero rate *)

Lemma futureValue_Fin (P C r t : R) :
  r <> 0 -> -1200 < r ->
  let g := Rpower (1 + r / 100 / 12) (12 * t) in
  calculateFutureValue (Fin P) (Fin C) (Fin r) (Fin t)
  = Fin (P * g + C * (g - 1) / (r / 100 / 12)).
Proof.
  intros Hr Hr' g. unfold calculateFutureValue.
  rewrite !div_Fin by lra.
  change (Fin 12 * Fin t)%js with (Fin (12 * t)).
  change (Fin 1 + Fin (r / 100 / 12))%js with (Fin (1 + r / 100 / 12)).
  rewrite Math_pow_positive by lra. fold g.
  rewrite sub_Fin.
  change (Fin C * Fin (g - 1))%js with (Fin (C * (g - 1))).
  rewrite div_Fin by lra. done.
Qed.

(** After a whole number of years the result is the closed formula of the
    source's comment, FV = P * (1 + r/n)^(n*t) + C * (((1 + r/n)^(n*t) - 1)
    / (r/n)), with an integer power. *)
Lemma futureValue_whole_years (P C r : R) (t : nat) :
  r <> 0 -> -1200 < r ->
  let m := r / 100 / 12 in
  calculateFutureValue (Fin P) (Fin C) (Fin r) (Fin (INR t))
  = Fin (P * (1 + m) ^ (12 * t) + C * ((1 + m) ^ (12 * t) - 1) / m).
Proof.
  intros Hr Hr' m. rewrite futureValue_Fin by done. fold m.
  replace (12 * INR t) with (INR (12 * t)).
  - rewrite Rpower_pow; [done|]. unfold m. lra.
  - rewrite mult_INR. simpl. lra.
Qed.

Example futureValue_one_year :
  calculateFutureValue (Fin 1000) (Fin 100) (Fin 12) (Fin 1)
  = Fin (1000 * (101 / 100) ^ 12
         + 100 * ((101 / 100) ^ 12 - 1) / (1 / 100)).
Proof.
  change (Fin 1) with (Fin (INR 1)).
  rewrite futureValue_whole_years by lra.
  f_equal. replace (1 + 12 / 100 / 12) with (101 / 100) by lra.
  replace (12 / 100 / 12) with (1 / 100) by lra. done.
Qed.

Example Math_round_half_up :
  Math_round (Fin (5 / 2)) = Fin 3 ∧ Math_round (Fin (- 5 / 2)) = Fin (-2).
Proof.
  split; simpl; f_equal; f_equal; apply Zfloor_eq; simpl; lra.
Qed.








(** * Further properties of the component *)

(** ** [generateYearlyData] *)

(** The point [generateYearlyData] builds for one year. *)
Lemma yearlyLoop_Fin (fuel : nat) (P C r : number) (c : R) (k : Z) :
  (0 < Z.of_nat fuel)%Z ->
  (Zfloor c + 1 - k < Z.of_nat fuel)%Z ->
  yearlyLoop fuel P C r (Fin c) k
  = Some ((λ j, mkYearlyPoint (Fin (IZR j))
                  (Math_round (calculateFutureValue P C r (Fin (IZR j)))))
            <$> seqZ k (Zfloor c + 1 - k)).
Proof.
  revert k. induction fuel as [|fuel IH]; intros k Hpos Hfuel; [lia|].
  simpl. case_bool_decide as Hle.
  - apply le_Zfloor in Hle.
    rewrite IH by lia.
    rewrite (seqZ_cons k) by lia. rewrite fmap_cons.
    do 4 f_equal; lia.
  - assert (Zfloor c < k)%Z.
    { apply Z.nle_gt. intros Hk. by apply le_Zfloor in Hk. }
    by rewrite seqZ_nil by lia.
Qed.




(** With [years = Infinity] the loop condition [year <= years] never
    fails: [generateYearlyData] does not return, however long it runs. *)
Theorem generateYearlyData_Infinity_diverges
    (fuel : nat) (P C r : number) :
  generateYearlyData fuel P C r PInf = None.
Proof.
  unfold generateYearlyData. generalize 0%Z.
  induction fuel as [|fuel IH]; intros k; [done|].
  simpl. by rewrite IH.
Qed.

(** A negative, [-Infinity] or NaN [years] gives the empty array: the
    loop body never runs, and no future value is computed. *)
Theorem generateYearlyData_no_years
    (fuel : nat) (P C r years : number) :
  years = NaN ∨ years = NInf ∨ (∃ y, years = Fin y ∧ y < 0) ->
  generateYearlyData (S fuel) P C r years = Some [].
Proof.
  intros [-> | [-> | (y & -> & Hy)]]; [done..|].
  unfold generateYearlyData. simpl.
  by rewrite bool_decide_eq_false_2 by lra.
Qed.

Lemma generateYearlyData_no_years_witness :
  generateYearlyData 1 (Fin 50000) (Fin 1000) (Fin 7) (Fin (-1)) = Some [].
Proof.
  apply generateYearlyData_no_years. right; right.
  exists (-1). split; [done|lra].
Defined.

(** The chart series of [calculateResults] holds, for each scenario, the
    very points [generateYearlyData] computes for that scenario's rate
    over [Math.min(yearsToRetirement, 40)] years: the same years and the
    same rounded balances, in the same order. *)
Theorem chartData_is_generateYearlyData (st : AppState) (s : Scenario) :
  validateInputs (inputs st) = ∅ ->
  s ∈ scenarios (calculateResults st) ->
  let i := inputs st in
  ∃ data,
    generateYearlyData (S chartFuel) (currentBalance i)
      (monthlyContribution i) (rate s)
      (Math_min (yearsToRetirement i) (Fin 40)) = Some data
    ∧ Forall2 (λ (p : DataPoint) q,
                 p !! "year" = Some (year q)
                 ∧ p !! name s = Some (balance q))
        (chartData (calculateResults st)) data.
Proof.
  intros He Hs i.
  destruct (accepted_yearsToRetirement _ He) as (y & Hy & Hy1 & Hy70).
  fold i in Hy. rewrite Hy, Math_min_Fin.
  assert (Hlast : (0 <= Zfloor (Rmin y 40) <= 40)%Z).
  { split.
    - apply le_Zfloor. apply Rmin_glb; lra.
    - pose proof (Zfloor_le _ _ (Rmin_r y 40)) as Hle.
      by rewrite (ZfloorZ 40) in Hle. }
  eexists. split.
  { unfold generateYearlyData. rewrite yearlyLoop_Fin.
    - by rewrite Z.sub_0_r.
    - lia.
    - unfold chartFuel. lia. }
  rewrite (chartData_accepted st y) by done.
  apply Forall2_fmap, Forall_Forall2_diag, Forall_forall.
  intros k _. cbn [year balance].
  revert Hs. rewrite scenarios_accepted by done.
  match goal with
  | |- context [chartPoint ?i [?s1; ?s2; ?s3] _] =>
      destruct (chartPoint_lookup i s1 s2 s3 k) as (Hk & Hb1 & Hb2 & Hb3);
        [done..|]
  end.
  intros Hs.
  apply elem_of_cons in Hs as [-> | Hs]; [done|].
  apply elem_of_cons in Hs as [-> | Hs]; [done|].
  apply elem_of_cons in Hs as [-> | Hs]; [done|].
  by apply elem_of_nil in Hs.
Qed.

Lemma chartData_is_generateYearlyData_witness :
  ∃ data,
    generateYearlyData (S chartFuel) (Fin 50000) (Fin 1000) (Fin 7)
      (Math_min (Fin 70) (Fin 40)) = Some data
    ∧ Forall2 (λ (p : DataPoint) q,
                 p !! "year" = Some (year q)
                 ∧ p !! "Base Case" = Some (balance q))
        (chartData (calculateResults seventyYears)) data.
Proof.
  assert (He : validateInputs (inputs seventyYears) = ∅).
  { apply validateInputs_accepts. lra. }
  refine (chartData_is_generateYearlyData seventyYears
            (mkScenario "Base Case" (Fin 7) _ "#3b82f6" _) He _).
  rewrite scenarios_accepted by done.
  apply elem_of_cons. right. apply elem_of_cons. by left.
Defined.

(** ** [handleInputChange] and the [onChange] events *)

Lemma getField_setField (f g : field) (v : number) (i : Inputs) :
  getField g (setField f v i) = if decide (f = g) then v else getField g i.
Proof. by destruct f, g. Qed.

Lemma logical_or_0_not_NaN (a : number) : logical_or a (Fin 0) <> NaN.
Proof. by destruct a; unfold logical_or; simpl; try case_bool_decide. Qed.

Lemma logical_or_falsy (a : number) :
  truthy a = false -> logical_or a (Fin 0) = Fin 0.
Proof. intros Ha. unfold logical_or. by rewrite Ha. Qed.

(** The check of a field reads that field only. *)
Lemma violated_getField (f : field) (i j : Inputs) :
  getField f i = getField f j -> violated f i = violated f j.
Proof. destruct f; simpl; by intros ->. Qed.

Lemma errors_calculateResults (st : AppState) :
  errors (calculateResults st) = validateInputs (inputs st).
Proof.
  destruct (decide (validateInputs (inputs st) = ∅)) as [He | He].
  - by rewrite calculateResults_accepted.
  - by rewrite calculateResults_rejected.
Qed.

(** [handleInputChange] never stores NaN: whatever [parseFloat] makes of
    the text, if no field of [inputs] is NaN before the call then none is
    after it. *)
Theorem handleInputChange_never_stores_NaN
    (parseFloat : string -> number) (f : field) (value : string)
    (st : AppState) :
  (forall g, getField g (inputs st) <> NaN) ->
  forall g, getField g (inputs (handleInputChange parseFloat f value st))
            <> NaN.
Proof.
  intros Hst g. cbn [handleInputChange setInputs inputs].
  rewrite getField_setField. case_decide; [|done].
  apply logical_or_0_not_NaN.
Qed.

Lemma handleInputChange_never_stores_NaN_witness :
  ∃ v,
    getField CurrentBalance
      (inputs (handleInputChange (λ _, NaN) CurrentBalance "abc"
                 initialState)) = v
    ∧ v <> NaN.
Proof.
  eexists. split; [reflexivity|].
  apply (handleInputChange_never_stores_NaN (λ _, NaN) CurrentBalance "abc"
           initialState).
  by intros [].
Defined.

(** Writes to the form fields behave like writes to a record: a second
    write to the same field replaces the first, writes to different
    fields commute, and a write touches neither the other fields nor the
    derived state (which only the following effect recomputes). *)
Theorem handleInputChange_writes
    (parseFloat : string -> number) (f g : field) (v w : string)
    (st : AppState) :
  let write := handleInputChange parseFloat in
  write f w (write f v st) = write f w st
  ∧ (f <> g -> write f v (write g w st) = write g w (write f v st))
  ∧ (f <> g ->
     getField g (inputs (write f v st)) = getField g (inputs st))
  ∧ results (write f v st) = results st
  ∧ scenarios (write f v st) = scenarios st
  ∧ chartData (write f v st) = chartData st
  ∧ errors (write f v st) = errors st.
Proof.
  intros write. subst write. unfold handleInputChange, setInputs. simpl.
  split; [by destruct f|].
  split; [intros Hfg; by destruct f, g|].
  split; [|done].
  intros Hfg. rewrite getField_setField. by case_decide.
Qed.

(** Editing one field never changes the error shown for another: after
    the change and its effect, the entry of every other field is what the
    validator gives for the inputs as they were. *)
Theorem onChange_keeps_other_errors
    (parseFloat : string -> number) (f g : field) (value : string)
    (st : AppState) :
  f <> g ->
  errors (onChange parseFloat f value st) !! key g
  = validateInputs (inputs st) !! key g.
Proof.
  intros Hfg. unfold onChange. rewrite errors_calculateResults.
  cbn [handleInputChange setInputs inputs].
  rewrite !validateInputs_lookup_eq.
  erewrite violated_getField; [done|].
  rewrite getField_setField. by case_decide.
Qed.

Lemma onChange_keeps_other_errors_witness :
  errors (onChange (λ _, NaN) CurrentBalance "" initialState)
    !! key YearsToRetirement
  = validateInputs (inputs initialState) !! key YearsToRetirement.
Proof. by apply onChange_keeps_other_errors. Defined.

(** A cleared field (or any text [parseFloat] turns into NaN or 0) is
    stored as 0.  For the balance, the return and the years this fails
    the field's check: its error is recorded and every derived result is
    cleared.  For the monthly contribution 0 is a valid value and no error
    is recorded for the field. *)
Theorem onChange_cleared_field
    (parseFloat : string -> number) (f : field) (value : string)
    (st : AppState) :
  truthy (parseFloat value) = false ->
  let st' := onChange parseFloat f value st in
  getField f (inputs st') = Fin 0
  ∧ (f <> MonthlyContribution ->
     errors st' !! key f = Some (message f)
     ∧ results st' = None ∧ scenarios st' = [] ∧ chartData st' = [])
  ∧ (f = MonthlyContribution -> errors st' !! key f = None).
Proof.
  intros Hfalsy st'. subst st'. unfold onChange.
  set (st1 := handleInputChange parseFloat f value st).
  assert (H0 : getField f (inputs st1) = Fin 0).
  { subst st1. cbn [handleInputChange setInputs inputs].
    rewrite getField_setField, decide_True by done.
    by apply logical_or_falsy. }
  assert (Hin : inputs (calculateResults st1) = inputs st1).
  { destruct (decide (validateInputs (inputs st1) = ∅)) as [He | He].
    - by rewrite calculateResults_accepted.
    - by rewrite calculateResults_rejected. }
  split; [by rewrite Hin|]. split.
  - intros Hf.
    assert (Hv : violated f (inputs st1) = true).
    { destruct f; try done; simpl in *; rewrite H0; unfold JS.not; simpl;
        by rewrite bool_decide_eq_true_2. }
    assert (He : validateInputs (inputs st1) <> ∅).
    { intros He. rewrite validateInputs_empty in He.
      by rewrite He in Hv. }
    rewrite calculateResults_rejected by done.
    cbn [errors results scenarios chartData].
    by rewrite validateInputs_lookup_eq, Hv.
  - intros ->. rewrite errors_calculateResults, validateInputs_lookup_eq.
    simpl in *. rewrite H0. simpl.
    by rewrite bool_decide_eq_false_2 by lra.
Qed.

Lemma onChange_cleared_field_witness :
  results (onChange (λ _, NaN) YearsToRetirement "" initialState) = None.
Proof.
  destruct (onChange_cleared_field (λ _, NaN) YearsToRetirement ""
              initialState eq_refl) as (_ & H & _).
  by destruct H as (_ & H & _).
Defined.

(** ** The validator on values that are not finite *)

(** The inputs [validateInputs] accepts, over all numbers: besides the
    finite values of the ranges, an infinite balance and an infinite or
    NaN contribution pass ([NaN < 0] is false and the contribution has no
    [!x] test), while the return and the years must be finite. *)
Theorem validateInputs_accepts_iff (i : Inputs) :
  validateInputs i = ∅ <->
  (currentBalance i = PInf ∨ ∃ x, currentBalance i = Fin x ∧ 0 < x)
  ∧ (monthlyContribution i = PInf ∨ monthlyContribution i = NaN
     ∨ ∃ x, monthlyContribution i = Fin x ∧ 0 <= x)
  ∧ (∃ x, expectedReturn i = Fin x ∧ x <> 0 ∧ -20 <= x <= 50)
  ∧ (∃ x, yearsToRetirement i = Fin x ∧ 1 <= x <= 70).
Proof.
  rewrite validateInputs_empty.
  rewrite <- violated_currentBalance, <- violated_monthlyContribution,
    <- violated_expectedReturn, <- violated_yearsToRetirement.
  split; [by intros Hv|]. by intros (? & ? & ? & ?) [].
Qed.





(** ** What is displayed *)

(** After [calculateResults] the results panel and the scenario panel are
    displayed together or not at all, and they are displayed exactly when
    no field shows an error. *)
Theorem panels_shown_iff_no_error (st : AppState) :
  let st' := calculateResults st in
  showsResults st' = showsScenarios st'
  ∧ (showsResults st' = true <-> forall f, showsError f st' = false).
Proof.
  intros st'. subst st'. unfold showsError.
  destruct (decide (validateInputs (inputs st) = ∅)) as [He | He].
  - rewrite calculateResults_accepted by done. split; [done|].
    split; [|done]. intros _ f. cbn [errors]. by rewrite lookup_empty.
  - rewrite calculateResults_rejected by done. split; [done|].
    split; [done|]. intros Hf. destruct He.
    apply validateInputs_empty. intros f.
    specialize (Hf f). cbn [errors] in Hf.
    rewrite validateInputs_lookup_eq in Hf.
    destruct (violated f (inputs st)); [by destruct f | done].
Qed.

(** ** The future value over whole years *)





Lemma geometric_nonneg (x : R) (n : nat) : 0 <= x -> 0 <= geometric x n.
Proof.
  intros Hx. induction n as [|n IH]; simpl; [lra|].
  pose proof (pow_le x n Hx). lra.
Qed.









(** ** Growth over the years *)

Lemma compound_years_mono (P C m g1 g2 : R) :
  0 <= P -> 0 <= C -> 0 < m -> g1 <= g2 ->
  P * g1 + C * (g1 - 1) / m <= P * g2 + C * (g2 - 1) / m.
Proof.
  intros HP HC Hm Hg.
  apply Rplus_le_compat; [by apply Rmult_le_compat_l|].
  apply Rmult_le_compat_r; [apply Rlt_le, Rinv_0_lt_compat; lra|].
  apply Rmult_le_compat_l; lra.
Qed.

Lemma growth_years_mono (r t1 t2 : R) :
  0 < r -> t1 <= t2 ->
  Rpower (1 + r / 100 / 12) (12 * t1) <= Rpower (1 + r / 100 / 12) (12 * t2).
Proof. intros Hr Ht. apply Rle_Rpower; lra. Qed.



Lemma Math_round_mono (u v : R) :
  u <= v ->
  ∃ a b, Math_round (Fin u) = Fin a ∧ Math_round (Fin v) = Fin b ∧ a <= b.
Proof.
  intros Huv. do 2 eexists. split; [done|]. split; [done|].
  apply IZR_le, Zfloor_le. lra.
Qed.

(** The Conservative line of the chart never falls: on finite validated
    inputs its balance at a later point of the series is at least its
    balance at an earlier point (the conservative rate is at least 1%). *)
Theorem conservative_series_nondecreasing
    (st : AppState) (cb mc er y : R) (j k : nat) (p q : DataPoint) :
  inputs st = mkInputs (Fin cb) (Fin mc) (Fin er) (Fin y) ->
  validateInputs (inputs st) = ∅ ->
  (j <= k)%nat ->
  chartData (calculateResults st) !! j = Some p ->
  chartData (calculateResults st) !! k = Some q ->
  ∃ u v, p !! "Conservative" = Some (Fin u)
         ∧ q !! "Conservative" = Some (Fin v)
         ∧ u <= v.
Proof.
  intros Hi He Hjk Hp Hq.
  pose proof He as Hacc. rewrite Hi in Hacc.
  apply validateInputs_accepts in Hacc as (Hcb & Hmc & (Hb0 & Hb1) & Hy).
  assert (Hy' : yearsToRetirement (inputs st) = Fin y) by by rewrite Hi.
  rewrite (chartData_accepted st y) in Hp, Hq by done.
  rewrite list_lookup_fmap in Hp. rewrite list_lookup_fmap in Hq.
  destruct (seqZ 0 (Zfloor (Rmin y 40) + 1) !! j) as [a|] eqn:Ha; [|done].
  destruct (seqZ 0 (Zfloor (Rmin y 40) + 1) !! k) as [b|] eqn:Hb; [|done].
  apply lookup_seqZ in Ha as [-> _]. apply lookup_seqZ in Hb as [-> _].
  simpl in Hp, Hq. injection Hp as <-. injection Hq as <-.
  rewrite scenarios_accepted by done.
  assert (Hpoint : forall n : nat,
            chartPoint (inputs st)
              (scenarios (calculateResults st)) (0 + Z.of_nat n)
              !! "Conservative"
            = Some (Math_round
                      (calculateFutureValue (Fin cb) (Fin mc)
                         (Fin (Rmax (er - 2) 1)) (Fin (INR n))))).
  { intros n. rewrite scenarios_accepted by done.
    match goal with
    | |- context [chartPoint ?i [?s1; ?s2; ?s3] ?z] =>
        destruct (chartPoint_lookup i s1 s2 s3 z) as (_ & H1 & _ & _);
          [done..|]
    end.
    cbn [name rate] in H1. rewrite H1. rewrite Hi.
    cbn [currentBalance monthlyContribution expectedReturn].
    rewrite sub_Fin, Math_max_Fin.
    by rewrite Z.add_0_l, <- INR_IZR_INZ. }
  rewrite <- (scenarios_accepted st He), !Hpoint.
  pose proof (Rmax_r (er - 2) 1).
  rewrite !futureValue_Fin by lra.
  match goal with
  | |- context [Some (Math_round (Fin ?a)) = Some (Fin _)
                ∧ Some (Math_round (Fin ?b)) = _ ∧ _] =>
      destruct (Math_round_mono a b) as (u & v & -> & -> & Huv)
  end.
  - apply compound_years_mono; [lra..|].
    apply growth_years_mono; [lra|]. by apply le_INR.
  - by exists u, v.
Qed.

Lemma first_chart_points (st : AppState) :
  validateInputs (inputs st) = ∅ ->
  ∃ p q, chartData (calculateResults st) !! 0%nat = Some p
         ∧ chartData (calculateResults st) !! 1%nat = Some q.
Proof.
  intros He.
  destruct (accepted_yearsToRetirement _ He) as (y & Hy & Hy1 & Hy70).
  rewrite (chartData_accepted st y) by done.
  assert (1 <= Zfloor (Rmin y 40))%Z.
  { apply le_Zfloor. apply Rmin_glb; lra. }
  rewrite !list_lookup_fmap.
  rewrite (lookup_seqZ_lt 0 _ 0), (lookup_seqZ_lt 0 _ 1) by lia.
  by do 2 eexists.
Qed.

Lemma conservative_series_nondecreasing_witness :
  ∃ p q u v,
    chartData (calculateResults initialState) !! 0%nat = Some p
    ∧ chartData (calculateResults initialState) !! 1%nat = Some q
    ∧ p !! "Conservative" = Some (Fin u)
    ∧ q !! "Conservative" = Some (Fin v)
    ∧ u <= v.
Proof.
  assert (He : validateInputs (inputs initialState) = ∅).
  { apply validateInputs_accepts. lra. }
  destruct (first_chart_points initialState He) as (p & q & Hp & Hq).
  destruct (conservative_series_nondecreasing initialState 50000 1000 7 30
              0 1 p q eq_refl He (le_S _ _ (le_n _)) Hp Hq)
    as (u & v & Hu & Hv & Huv).
  by exists p, q, u, v.
Defined.

(** ** The two ends of the chart *)




(** When [yearsToRetirement] is a whole number of at most 40, the last
    point of the chart is the retirement year and shows, for each
    scenario, that scenario's projected value rounded by [Math.round]:
    the chart ends where the scenario cards stand. *)
Theorem chart_ends_at_projection (st : AppState) (n : Z) :
  validateInputs (inputs st) = ∅ ->
  yearsToRetirement (inputs st) = Fin (IZR n) ->
  (n <= 40)%Z ->
  ∃ p, last (chartData (calculateResults st)) = Some p
       ∧ p !! "year" = Some (yearsToRetirement (inputs st))
       ∧ forall s, s ∈ scenarios (calculateResults st) ->
           p !! name s = Some (Math_round (projectedValue s)).
Proof.
  intros He Hy Hn.
  destruct (accepted_yearsToRetirement _ He) as (y & Hy' & Hy1 & Hy70).
  rewrite Hy in Hy'. injection Hy' as <-.
  assert (Hn1 : (1 <= n)%Z) by by apply le_IZR.
  rewrite (chartData_accepted st (IZR n)) by done.
  rewrite Rmin_left by (apply IZR_le in Hn; lra).
  rewrite ZfloorZ, fmap_last.
  assert (Hlast : last (seqZ 0 (n + 1)) = Some n).
  { rewrite last_lookup, length_seqZ.
    rewrite lookup_seqZ_lt by lia. f_equal. lia. }
  rewrite Hlast. eexists. split; [done|].
  rewrite scenarios_accepted by done. rewrite Hy.
  match goal with
  | |- context [chartPoint ?i [?s1; ?s2; ?s3] ?z] =>
      destruct (chartPoint_lookup i s1 s2 s3 z) as (Hk & Hb1 & Hb2 & Hb3);
        [done..|]
  end.
  split; [done|]. intros s Hs.
  apply elem_of_cons in Hs as [-> | Hs]; [by rewrite Hb1|].
  apply elem_of_cons in Hs as [-> | Hs]; [by rewrite Hb2|].
  apply elem_of_cons in Hs as [-> | Hs]; [by rewrite Hb3|].
  by apply elem_of_nil in Hs.
Qed.

Lemma chart_ends_at_projection_witness :
  ∃ p, last (chartData (calculateResults initialState)) = Some p
       ∧ p !! "year" = Some (Fin 30).
Proof.
  assert (He : validateInputs (inputs initialState) = ∅).
  { apply validateInputs_accepts. lra. }
  destruct (chart_ends_at_projection initialState 30 He eq_refl)
    as (p & Hp & Hyear & _); [lia|].
  by exists p.
Defined.

(** ** The derived state *)

(** [calculateResults] recomputes everything from [inputs]: two states
    with the same inputs give the same state, whatever results, scenarios,
    chart data or errors they held before.  In particular running it a
    second time changes nothing. *)
Theorem calculateResults_depends_on_inputs_only (st1 st2 : AppState) :
  inputs st1 = inputs st2 ->
  calculateResults st1 = calculateResults st2
  ∧ calculateResults (calculateResults st1) = calculateResults st1.
Proof.
  intros Hi.
  assert (Hsame : forall a b, inputs a = inputs b ->
            calculateResults a = calculateResults b).
  { intros a b Hab.
    destruct (decide (validateInputs (inputs a) = ∅)) as [He | He].
    - rewrite (calculateResults_accepted a), (calculateResults_accepted b);
        [by rewrite Hab | by rewrite <- Hab | done].
    - rewrite (calculateResults_rejected a), (calculateResults_rejected b);
        [by rewrite Hab | by rewrite <- Hab | done]. }
  split; [by apply Hsame|]. apply Hsame.
  destruct (decide (validateInputs (inputs st1) = ∅)) as [He | He].
  - by rewrite calculateResults_accepted.
  - by rewrite calculateResults_rejected.
Qed.

Lemma calculateResults_depends_on_inputs_only_witness :
  calculateResults
    (setErrors (<["currentBalance" := "stale"]> ∅) initialState)
  = calculateResults initialState.
Proof.
  destruct (calculateResults_depends_on_inputs_only
              (setErrors (<["currentBalance" := "stale"]> ∅) initialState)
              initialState) as [H _]; [done | exact H].
Defined.



(** ** The annuity behind [calculateMonthlyIncome] *)

Lemma annuityGrowth_pow : annuityGrowth = (1 + 4 / 100 / 12) ^ 240.
Proof.
  unfold annuityGrowth. rewrite <- Rpower_pow by lra. f_equal.
  rewrite INR_IZR_INZ. change (Z.of_nat 240) with 240%Z. lra.
Qed.

Lemma geometric_shift (x : R) (n : nat) :
  geometric x (S n) = 1 + x * geometric x n.
Proof.
  induction n as [|n IH]; [simpl; lra|].
  change (geometric x (S (S n))) with (geometric x (S n) + x ^ S n).
  rewrite IH at 1. simpl. lra.
Qed.

Lemma geometric_times_rate (x : R) (n : nat) :
  (x - 1) * geometric x n = x ^ n - 1.
Proof. induction n as [|n IH]; simpl; lra. Qed.

Lemma geometric_gt (x : R) (n : nat) :
  1 < x -> INR (S (S n)) < geometric x (S (S n)).
Proof.
  intros Hx. induction n as [|n IH]; [simpl; lra|].
  change (geometric x (S (S (S n))))
    with (geometric x (S (S n)) + x ^ S (S n)).
  rewrite (S_INR (S (S n))).
  pose proof (pow_R1_Rle x (S (S n))). lra.
Qed.

Lemma geometric_lt_top (x : R) (n : nat) :
  1 < x -> geometric x (S n) < INR (S n) * x ^ S n.
Proof.
  intros Hx. induction n as [|n IH]; [simpl; lra|].
  change (geometric x (S (S n))) with (geometric x (S n) + x ^ S n).
  rewrite (S_INR (S n)).
  assert (0 < x ^ S n) by (apply pow_lt; lra).
  assert (0 <= INR (S n)) by apply pos_INR.
  change (x ^ S (S n)) with (x * x ^ S n).
  assert (0 < (INR (S n) + 1) * x ^ S n) by (apply Rmult_lt_0_compat; lra).
  assert ((INR (S n) + 1) * x ^ S n < (INR (S n) + 1) * x ^ S n * x) by nra.
  lra.
Qed.

(** The payment per unit of balance is the growth factor over the
    geometric sum of the 240 monthly factors. *)
Lemma annuityFactor_geometric :
  let x := 1 + 4 / 100 / 12 in
  annuityFactor * geometric x 240 = x ^ 240 ∧ 0 < geometric x 240.
Proof.
  intros x. pose proof annuityGrowth_gt_1 as Hg.
  pose proof (geometric_times_rate x 240) as Hgeo.
  rewrite annuityGrowth_pow in Hg. fold x in Hg.
  assert (Hpos : 0 < geometric x 240).
  { assert (0 < (x - 1) * geometric x 240) by lra.
    assert (0 < x - 1) by (unfold x; lra). nra. }
  split; [|done].
  unfold annuityFactor. rewrite annuityGrowth_pow. fold x.
  replace (x - 1) with (4 / 100 / 12) in Hgeo by (unfold x; lra).
  rewrite <- Hgeo. field. lra.
Qed.

(** The monthly income on a positive balance is more than a 240th of the
    balance (the 240 payments add up to more than the balance), more than
    one month of interest on the balance, and less than the two
    together. *)
Theorem monthlyIncome_bounds (pv : R) :
  0 < pv ->
  ∃ m, calculateMonthlyIncome (Fin pv) = Fin m
       ∧ pv / 240 < m
       ∧ pv * (4 / 100 / 12) < m
       ∧ m < pv / 240 + pv * (4 / 100 / 12).
Proof.
  intros Hpv. eexists. split; [apply calculateMonthlyIncome_Fin|].
  set (x := 1 + 4 / 100 / 12).
  destruct annuityFactor_geometric as [Hk Hgeo]. fold x in Hk, Hgeo.
  pose proof (geometric_times_rate x 240) as Hrate.
  assert (Hx : 1 < x) by (unfold x; lra).
  pose proof (geometric_gt x 238 Hx) as Hlow.
  pose proof (geometric_lt_top x 239 Hx) as Htop.
  assert (HN : INR 240 = 240).
  { rewrite INR_IZR_INZ. by change (Z.of_nat 240) with 240%Z. }
  rewrite HN in Hlow, Htop.
  assert (Hrm : x - 1 = 4 / 100 / 12) by (unfold x; lra).
  rewrite <- Hrm.
  set (k := annuityFactor) in *. set (g := geometric x 240) in *.
  set (top := x ^ 240) in *.
  assert (Hk1 : / 240 < k) by nra.
  assert (Hk2 : x - 1 < k) by nra.
  assert (Hk3 : k < / 240 + (x - 1)) by nra.
  repeat split; nra.
Qed.

Lemma monthlyIncome_bounds_witness :
  ∃ m, calculateMonthlyIncome (Fin 240000) = Fin m ∧ 1000 < m ∧ m < 1800.
Proof.
  destruct (monthlyIncome_bounds 240000) as (m & Hm & H1 & _ & H2); [lra|].
  exists m. split; [done|]. lra.
Defined.

Lemma annuityBalance_closed (rm pmt pv : R) (n : nat) :
  annuityBalance rm pmt pv n
  = pv * (1 + rm) ^ n - pmt * geometric (1 + rm) n.
Proof.
  induction n as [|n IH]; [simpl; lra|].
  rewrite geometric_shift.
  change (annuityBalance rm pmt pv (S n))
    with (annuityBalance rm pmt pv n * (1 + rm) - pmt).
  rewrite IH. simpl. lra.
Qed.

(** With one more month the discounted sum grows: [geometric x n / x^n]
    is strictly increasing in [n] (cross-multiplied). *)
Lemma geometric_discounted_lt (x : R) (n d : nat) :
  1 < x ->
  geometric x n * x ^ (n + S d) < geometric x (n + S d) * x ^ n.
Proof.
  intros Hx.
  assert (Hn : 0 < x ^ n) by (apply pow_lt; lra).
  pose proof (geometric_times_rate x n) as Hr.
  induction d as [|d IH].
  - replace (n + 1)%nat with (S n) by lia.
    change (geometric x (S n)) with (geometric x n + x ^ n).
    change (x ^ S n) with (x * x ^ n). nra.
  - replace (n + S (S d))%nat with (S (n + S d)) by lia.
    change (geometric x (S (n + S d)))
      with (geometric x (n + S d) + x ^ (n + S d)).
    change (x ^ S (n + S d)) with (x * x ^ (n + S d)).
    assert (0 < x ^ (n + S d)) by (apply pow_lt; lra).
    nra.
Qed.

(** The formula of [calculateMonthlyIncome] is the payment of the annuity
    it is named after: an account that starts at the balance, earns
    4%/12 each month and then pays the monthly income, stays positive for
    239 payments and is exactly empty after the 240th. *)
Theorem monthlyIncome_exhausts_balance (pv : R) :
  ∃ m, calculateMonthlyIncome (Fin pv) = Fin m
       ∧ annuityBalance (4 / 100 / 12) m pv 240 = 0
       ∧ forall n, (n < 240)%nat -> 0 < pv ->
           0 < annuityBalance (4 / 100 / 12) m pv n.
Proof.
  eexists. split; [apply calculateMonthlyIncome_Fin|].
  set (x := 1 + 4 / 100 / 12).
  destruct annuityFactor_geometric as [Hk Hgeo]. fold x in Hk, Hgeo.
  split.
  - rewrite annuityBalance_closed. fold x.
    replace (annuityFactor * pv * geometric x 240)
      with (pv * (annuityFactor * geometric x 240)) by ring.
    rewrite Hk. ring.
  - intros n Hn Hpv. rewrite annuityBalance_closed. fold x.
    assert (Hx : 1 < x) by (unfold x; lra).
    pose proof (geometric_discounted_lt x n (239 - n) Hx) as Hlt.
    replace (n + S (239 - n))%nat with 240%nat in Hlt by lia.
    assert (0 <= geometric x n) by (apply geometric_nonneg; lra).
    assert (0 < x ^ n) by (apply pow_lt; lra).
    set (k := annuityFactor) in *. set (g := geometric x 240) in *.
    set (top := x ^ 240) in *. set (gn := geometric x n) in *.
    set (xn := x ^ n) in *.
    assert (k * gn < xn).
    { apply Rmult_lt_reg_r with g; [done|].
      replace (k * gn * g) with (k * g * gn) by ring. rewrite Hk. lra. }
    nra.
Qed.
